(** * Thread screen model (frontend/screens/thread/model)

    A shallow embedding of the reducers of the thread screen and of the
    stream wiring that emits them, followed by the properties of the
    resulting State stream. *)

From Stdlib Require Import Ascii String NArith Bool List Lia.
From stdpp Require Import base option list gmap strings.
Import ListNotations.

(** ** Data model *)

(** [FeedId] and [MsgId] are string aliases in ssb-typescript. *)
Abbreviation FeedId := string.
Abbreviation MsgId := string.

(** Modelled from the spec: the declaration of [MsgAndExtras]
    (../../ssb/types) is not among the sources.  The model reads only the
    [key] of a message; the remaining content travels along untouched. *)
Record MsgAndExtras := {
  key : MsgId;
  content : string;
}.

Inductive ErrorReason := missing | blocked | unknown.

(** Modelled from the spec: the declaration of [ThreadAndExtras]
    (../../ssb/types) is not among the sources.  A thread has a completeness
    flag, an ordered sequence of messages and an optional error
    classification; an object literal without [errorReason] is [None]. *)
Record ThreadAndExtras := {
  full : bool;
  messages : list MsgAndExtras;
  errorReason : option ErrorReason;
}.

(** The value behind [GetReadable<MsgAndExtras>] is a function of the ssb
    driver; the model only ever stores [null] in its place. *)
Inductive GetReadable := readableHandle (n : nat).

(** Modelled from the spec: the declaration of [Props] (./props) is not
    among the sources.  The fields are those the model reads; a field is
    optional where the code falls back with [??] or tests its truthiness. *)
Record Props := {
  p_selfFeedId : FeedId;
  p_selfAvatarUrl : option string;
  p_rootMsgId : option MsgId;
  p_rootMsg : option MsgAndExtras;
  p_higherRootMsgId : option MsgId;
  p_expandRootCW : option bool;
  p_replyToMsgId : option MsgId;
}.

Record State := {
  selfFeedId : FeedId;
  selfAvatarUrl : option string;
  rootMsgId : MsgId;
  higherRootMsgId : option MsgId;
  loading : bool;
  loadingReplies : bool;
  thread : ThreadAndExtras;
  subthreads : gmap string ThreadAndExtras;
  expandRootCW : bool;
  replyText : string;
  replyEditable : bool;
  getSelfRepliesReadable : option GetReadable;
  startedAsReply : bool;
  keyboardVisible : bool;
}.

(** An [Error] as far as the model inspects it. *)
Record JsError := { message : string }.

(** Outcome of evaluating an expression that may throw. *)
Inductive completion (A : Type) :=
| Normal (a : A)
| TypeError.
Arguments Normal {A} a.
Arguments TypeError {A}.

(** ** Object spread: [{...prev, field: v}] *)

Definition with_thread (t : ThreadAndExtras) (prev : State) : State :=
  {| selfFeedId := selfFeedId prev; selfAvatarUrl := selfAvatarUrl prev;
     rootMsgId := rootMsgId prev; higherRootMsgId := higherRootMsgId prev;
     loading := loading prev; loadingReplies := loadingReplies prev;
     thread := t; subthreads := subthreads prev;
     expandRootCW := expandRootCW prev; replyText := replyText prev;
     replyEditable := replyEditable prev;
     getSelfRepliesReadable := getSelfRepliesReadable prev;
     startedAsReply := startedAsReply prev;
     keyboardVisible := keyboardVisible prev |}.

Definition with_loading (b : bool) (prev : State) : State :=
  {| selfFeedId := selfFeedId prev; selfAvatarUrl := selfAvatarUrl prev;
     rootMsgId := rootMsgId prev; higherRootMsgId := higherRootMsgId prev;
     loading := b; loadingReplies := loadingReplies prev;
     thread := thread prev; subthreads := subthreads prev;
     expandRootCW := expandRootCW prev; replyText := replyText prev;
     replyEditable := replyEditable prev;
     getSelfRepliesReadable := getSelfRepliesReadable prev;
     startedAsReply := startedAsReply prev;
     keyboardVisible := keyboardVisible prev |}.

Definition with_loadingReplies (b : bool) (prev : State) : State :=
  {| selfFeedId := selfFeedId prev; selfAvatarUrl := selfAvatarUrl prev;
     rootMsgId := rootMsgId prev; higherRootMsgId := higherRootMsgId prev;
     loading := loading prev; loadingReplies := b;
     thread := thread prev; subthreads := subthreads prev;
     expandRootCW := expandRootCW prev; replyText := replyText prev;
     replyEditable := replyEditable prev;
     getSelfRepliesReadable := getSelfRepliesReadable prev;
     startedAsReply := startedAsReply prev;
     keyboardVisible := keyboardVisible prev |}.

Definition with_subthreads (m : gmap string ThreadAndExtras) (prev : State)
  : State :=
  {| selfFeedId := selfFeedId prev; selfAvatarUrl := selfAvatarUrl prev;
     rootMsgId := rootMsgId prev; higherRootMsgId := higherRootMsgId prev;
     loading := loading prev; loadingReplies := loadingReplies prev;
     thread := thread prev; subthreads := m;
     expandRootCW := expandRootCW prev; replyText := replyText prev;
     replyEditable := replyEditable prev;
     getSelfRepliesReadable := getSelfRepliesReadable prev;
     startedAsReply := startedAsReply prev;
     keyboardVisible := keyboardVisible prev |}.

Definition with_replyText (t : string) (prev : State) : State :=
  {| selfFeedId := selfFeedId prev; selfAvatarUrl := selfAvatarUrl prev;
     rootMsgId := rootMsgId prev; higherRootMsgId := higherRootMsgId prev;
     loading := loading prev; loadingReplies := loadingReplies prev;
     thread := thread prev; subthreads := subthreads prev;
     expandRootCW := expandRootCW prev; replyText := t;
     replyEditable := replyEditable prev;
     getSelfRepliesReadable := getSelfRepliesReadable prev;
     startedAsReply := startedAsReply prev;
     keyboardVisible := keyboardVisible prev |}.

Definition with_replyEditable (b : bool) (prev : State) : State :=
  {| selfFeedId := selfFeedId prev; selfAvatarUrl := selfAvatarUrl prev;
     rootMsgId := rootMsgId prev; higherRootMsgId := higherRootMsgId prev;
     loading := loading prev; loadingReplies := loadingReplies prev;
     thread := thread prev; subthreads := subthreads prev;
     expandRootCW := expandRootCW prev; replyText := replyText prev;
     replyEditable := b;
     getSelfRepliesReadable := getSelfRepliesReadable prev;
     startedAsReply := startedAsReply prev;
     keyboardVisible := keyboardVisible prev |}.

Definition with_keyboardVisible (b : bool) (prev : State) : State :=
  {| selfFeedId := selfFeedId prev; selfAvatarUrl := selfAvatarUrl prev;
     rootMsgId := rootMsgId prev; higherRootMsgId := higherRootMsgId prev;
     loading := loading prev; loadingReplies := loadingReplies prev;
     thread := thread prev; subthreads := subthreads prev;
     expandRootCW := expandRootCW prev; replyText := replyText prev;
     replyEditable := replyEditable prev;
     getSelfRepliesReadable := getSelfRepliesReadable prev;
     startedAsReply := startedAsReply prev;
     keyboardVisible := b |}.

(** ** Truthiness and nullish fallback *)

(** [ToBoolean] of an optional string: [undefined], [null] and the empty
    string are falsy, every other string is truthy. *)
Definition truthy_string (v : option string) : bool :=
  match v with
  | None => false
  | Some EmptyString => false
  | Some (String _ _) => true
  end.

(** [ToBoolean] of an optional object: only [undefined] is falsy. *)
Definition truthy_object {A : Type} (v : option A) : bool :=
  match v with
  | None => false
  | Some _ => true
  end.

(** [a ?? b] with a total right operand. *)
Definition nullish_or {A : Type} (a : option A) (b : A) : A :=
  match a with
  | Some x => x
  | None => b
  end.

(** [props.rootMsgId ?? props.rootMsg.key]: the right operand is evaluated
    only when the left one is nullish, and reading [key] of [undefined]
    throws. *)
Definition resolveRootMsgId (props : Props) : completion MsgId :=
  match p_rootMsgId props with
  | Some id => Normal id
  | None =>
      match p_rootMsg props with
      | Some m => Normal (key m)
      | None => TypeError
      end
  end.

(** ** Sentinel threads *)

Definition emptyThread : ThreadAndExtras :=
  {| full := true; messages := []; errorReason := None |}.
Definition missingThread : ThreadAndExtras :=
  {| full := true; messages := []; errorReason := Some missing |}.
Definition blockedThread : ThreadAndExtras :=
  {| full := true; messages := []; errorReason := Some blocked |}.
Definition unknownErrorThread : ThreadAndExtras :=
  {| full := true; messages := []; errorReason := Some unknown |}.

(** ** Error classification: [/Author Blocked/i] and [/Not Found/i] *)

(** [Canonicalize] of a case-insensitive, non-unicode RegExp on one
    character: an ASCII lower-case letter becomes its upper-case form.
    Characters outside ASCII never canonicalize to an ASCII character, so
    against these two patterns they behave as themselves. *)
Definition canonicalize (c : ascii) : ascii :=
  let n := N_of_ascii c in
  if (97 <=? n)%N && (n <=? 122)%N then ascii_of_N (n - 32) else c.

(** Does the literal pattern match at the start of the input? *)
Fixpoint matchesHere (pat s : string) : bool :=
  match pat with
  | EmptyString => true
  | String p pat' =>
      match s with
      | EmptyString => false
      | String c s' =>
          Ascii.eqb (canonicalize p) (canonicalize c) && matchesHere pat' s'
      end
  end.

(** [/pat/i.test(s)] for a pattern made of literal characters: try every
    start index from left to right. *)
Fixpoint regexTestI (pat s : string) : bool :=
  matchesHere pat s ||
  match s with
  | EmptyString => false
  | String _ s' => regexTestI pat s'
  end.

(** The callback given to [replaceError] on the thread stream. *)
Definition replaceThreadError (err : JsError) : ThreadAndExtras :=
  if regexTestI "Author Blocked" (message err) then blockedThread
  else if regexTestI "Not Found" (message err) then missingThread
  else unknownErrorThread.

(** ** Reducers *)

Definition Reducer : Type := State -> State.

Definition propsReducer (props : Props) (_prev : option State)
  : completion State :=
  match resolveRootMsgId props with
  | TypeError => TypeError
  | Normal rootId =>
      Normal
        {| selfFeedId := p_selfFeedId props;
           selfAvatarUrl := p_selfAvatarUrl props;
           rootMsgId := rootId;
           higherRootMsgId := p_higherRootMsgId props;
           loading := true;
           loadingReplies := negb (negb (truthy_object (p_rootMsg props)));
           thread := emptyThread;
           subthreads := ∅;
           expandRootCW := nullish_or (p_expandRootCW props) false;
           replyText := "";
           replyEditable := true;
           getSelfRepliesReadable := None;
           startedAsReply :=
             if truthy_string (p_replyToMsgId props) then true else false;
           keyboardVisible :=
             if truthy_string (p_replyToMsgId props) then true else false |}
  end.

Definition setRootMsgReducer (rootMsg : MsgAndExtras) : Reducer :=
  fun prev =>
    if full (thread prev) && (0 <? length (messages (thread prev)))
    then prev
    else
      with_thread
        {| full := false; messages := [rootMsg]; errorReason := None |} prev.

Definition setThreadReducer (thread : ThreadAndExtras) : Reducer :=
  fun prev =>
    with_loadingReplies false (with_loading false (with_thread thread prev)).

(** An entry of [subthreads] is a thread object, hence truthy whenever it
    is there.  Message ids are keys of messages (they start with a percent
    sign), so the lookup never lands on a property that an object literal
    inherits. *)
Definition setSubthreadReducer (msgId : MsgId) (subthread : ThreadAndExtras)
  : Reducer :=
  fun prev =>
    if truthy_object (subthreads prev !! msgId)
    then prev
    else with_subthreads (<[msgId := subthread]> (subthreads prev)) prev.

Definition keyboardAppearedReducer : Reducer :=
  fun prev => with_keyboardVisible true prev.

Definition keyboardDisappearedReducer : Reducer :=
  fun prev => with_keyboardVisible false prev.

Definition updateReplyTextReducer (text : string) : Reducer :=
  fun prev => with_replyText text prev.

Definition emptyPublishedReducer : Reducer :=
  fun prev => with_replyEditable false (with_replyText "" prev).

Definition resetEditableReducer : Reducer :=
  fun prev => with_replyEditable true prev.

Definition emptyReplyTextReducer : Reducer :=
  fun prev => with_replyText "" prev.

(** [getItem] delivers [string | null]. *)
Definition loadReplyDraftReducer (replyText : option string) : Reducer :=
  fun prev =>
    if negb (truthy_string replyText)
    then with_replyText "" prev
    else with_replyText (nullish_or replyText "") prev.

Definition addSelfRepliesReducer (newMsg : MsgAndExtras) : Reducer :=
  fun prev =>
    with_thread
      {| messages := messages (thread prev) ++ [newMsg];
         full := true;
         errorReason := None |} prev.

(** ** Stream wiring of [model] *)

(** What the model asks of its sources while it runs. *)
Inductive Request :=
| RehydrateMessage (rootMsg : MsgAndExtras)
| ThreadOf (msgId : MsgId) (includeForks : bool)
| GetItem (storageKey : string)
| SelfRepliesReadable (live old : bool).

(** What reaches the model after the first [props$] emission: actions of
    the intent and emissions of the sources. *)
Inductive Event :=
| PropsEmitted (props : Props)
| RootMsgRehydrated (rootMsg : MsgAndExtras)
| ThreadLoaded (thread : ThreadAndExtras)
| ThreadFailed (err : JsError)
| ReplySeen (msgId : MsgId)
| SubthreadLoaded (msgId : MsgId) (subthread : ThreadAndExtras)
| SubthreadFailed (msgId : MsgId) (err : JsError)
| KeyboardAppeared
| KeyboardDisappeared
| UpdateReplyText (text : string)
| PublishMsg
| WillReply
| LoadReplyDraft (rootMsgId : MsgId)
| DraftItem (replyText : option string)
| SelfReply (newMsg : MsgAndExtras).

Inductive Output :=
| Emit (r : Reducer)
| Ask (q : Request).

(** The subscriptions the merged stream holds at a given moment.
    - [threadEnded]: the root thread stream failed and [replaceError]
      swapped in the one-shot sentinel stream;
    - [subthreadLoads]: ids of the inner streams that
      [flattenConcurrently] keeps open, one per reply-seen event;
    - [draftSubscribed]: [flatten] holds an inner [getItem] stream;
    - [selfReplyPending]: the [take(1)] on the live readable of the latest
      reply start has not delivered yet. *)
Record Pipeline := {
  threadEnded : bool;
  subthreadLoads : list MsgId;
  draftSubscribed : bool;
  selfReplyPending : bool;
}.

Definition initialPipeline : Pipeline :=
  {| threadEnded := false; subthreadLoads := [];
     draftSubscribed := false; selfReplyPending := false |}.

Definition mem (msgId : MsgId) (l : list MsgId) : bool :=
  existsb (String.eqb msgId) l.

Fixpoint removeOne (msgId : MsgId) (l : list MsgId) : list MsgId :=
  match l with
  | [] => []
  | x :: l' => if String.eqb msgId x then l' else x :: removeOne msgId l'
  end.

(** One event through the merged streams, in the order [xs.merge] lists
    them.  Modelled from the spec: the ssb driver (../../drivers/ssb) is not
    among the sources; [selfReplies$] hands its readable factory to each
    subscriber once, and a failed stream emits nothing after its error. *)
Definition step (props : Props) (pl : Pipeline) (ev : Event)
  : Pipeline * list Output :=
  match ev with
  | PropsEmitted _ =>
      (* every branch on props$ is behind take(1), already consumed *)
      (pl, [])
  | RootMsgRehydrated rootMsg =>
      if truthy_object (p_rootMsg props)
      then (pl, [Emit (setRootMsgReducer rootMsg)])
      else (pl, [])
  | ThreadLoaded thread =>
      if threadEnded pl then (pl, [])
      else (pl, [Emit (setThreadReducer thread)])
  | ThreadFailed err =>
      if threadEnded pl then (pl, [])
      else
        ({| threadEnded := true; subthreadLoads := subthreadLoads pl;
            draftSubscribed := draftSubscribed pl;
            selfReplyPending := selfReplyPending pl |},
         [Emit (setThreadReducer (replaceThreadError err))])
  | ReplySeen msgId =>
      ({| threadEnded := threadEnded pl;
          subthreadLoads := subthreadLoads pl ++ [msgId];
          draftSubscribed := draftSubscribed pl;
          selfReplyPending := selfReplyPending pl |},
       [Ask (ThreadOf msgId false)])
  | SubthreadLoaded msgId subthread =>
      if mem msgId (subthreadLoads pl)
      then (pl, [Emit (setSubthreadReducer msgId subthread)])
      else (pl, [])
  | SubthreadFailed msgId _err =>
      if mem msgId (subthreadLoads pl)
      then
        ({| threadEnded := threadEnded pl;
            subthreadLoads := removeOne msgId (subthreadLoads pl);
            draftSubscribed := draftSubscribed pl;
            selfReplyPending := selfReplyPending pl |},
         [Emit (setSubthreadReducer msgId emptyThread)])
      else (pl, [])
  | KeyboardAppeared => (pl, [Emit keyboardAppearedReducer])
  | KeyboardDisappeared => (pl, [Emit keyboardDisappearedReducer])
  | UpdateReplyText text => (pl, [Emit (updateReplyTextReducer text)])
  | PublishMsg =>
      (pl, [Emit emptyPublishedReducer; Emit resetEditableReducer])
  | WillReply =>
      ({| threadEnded := threadEnded pl;
          subthreadLoads := subthreadLoads pl;
          draftSubscribed := draftSubscribed pl;
          selfReplyPending := true |},
       [Emit emptyReplyTextReducer; Ask (SelfRepliesReadable true false)])
  | LoadReplyDraft rootMsgId =>
      ({| threadEnded := threadEnded pl;
          subthreadLoads := subthreadLoads pl;
          draftSubscribed := true;
          selfReplyPending := selfReplyPending pl |},
       [Ask (GetItem ("replyDraft:" +:+ rootMsgId))])
  | DraftItem replyText =>
      if draftSubscribed pl
      then (pl, [Emit (loadReplyDraftReducer replyText)])
      else (pl, [])
  | SelfReply newMsg =>
      if selfReplyPending pl
      then
        ({| threadEnded := threadEnded pl;
            subthreadLoads := subthreadLoads pl;
            draftSubscribed := draftSubscribed pl;
            selfReplyPending := false |},
         [Emit (addSelfRepliesReducer newMsg)])
      else (pl, [])
  end.

Fixpoint outputs (props : Props) (pl : Pipeline) (evs : list Event)
  : list Output :=
  match evs with
  | [] => []
  | ev :: evs' =>
      let '(pl', out) := step props pl ev in
      out ++ outputs props pl' evs'
  end.

Fixpoint reducersOf (out : list Output) : list Reducer :=
  match out with
  | [] => []
  | Emit r :: out' => r :: reducersOf out'
  | Ask _ :: out' => reducersOf out'
  end.

(** The fold of [withState]: every reducer is applied to the state the
    previous one produced, and each result is emitted. *)
Fixpoint foldStates (s : State) (rs : list Reducer) : list State :=
  match rs with
  | [] => []
  | r :: rs' => r s :: foldStates (r s) rs'
  end.

(** The State stream of a screen whose props arrive first and are followed
    by [evs]. *)
Definition stateStream (props : Props) (evs : list Event)
  : completion (list State) :=
  match propsReducer props None with
  | TypeError => TypeError
  | Normal s0 =>
      Normal
        (s0 :: foldStates s0
                 (reducersOf (outputs props initialPipeline evs)))
  end.




(** Upper-casing of a whole text, character by character. *)
Fixpoint foldCase (s : string) : string :=
  match s with
  | EmptyString => EmptyString
  | String c s' => String (canonicalize c) (foldCase s')
  end.

(** [s] contains an occurrence of [pat] up to the case of ASCII letters. *)
Definition containsCI (pat s : string) : Prop :=
  exists pre mid post,
    s = pre +:+ mid +:+ post /\ foldCase mid = foldCase pat.

(** Number of places where a sequence of flags goes from [true] to
    [false]. *)
Fixpoint falls (bs : list bool) : nat :=
  match bs with
  | b1 :: ((b2 :: _) as rest) =>
      (if b1 && negb b2 then 1 else 0) + falls rest
  | _ => 0
  end.

Definition isThreadCompletion (ev : Event) : bool :=
  match ev with
  | ThreadLoaded _ | ThreadFailed _ => true
  | _ => false
  end.

(** The subscriptions left after a run of events. *)
Fixpoint pipelineAfter (props : Props) (pl : Pipeline) (evs : list Event)
  : Pipeline :=
  match evs with
  | [] => pl
  | ev :: evs' => pipelineAfter props (fst (step props pl ev)) evs'
  end.

(** A reducer that never turns [loading] back on. *)
Definition keepsLoaded (r : Reducer) : Prop :=
  forall s, loading s = false -> loading (r s) = false.

(** A reducer that leaves [loading] as it finds it. *)
Definition keepsLoading (r : Reducer) : Prop :=
  forall s, loading (r s) = loading s.


(** ** Sample values *)

Definition sampleReplyProps : Props :=
  {| p_selfFeedId := "@me.ed25519"; p_selfAvatarUrl := None;
     p_rootMsgId := None;
     p_rootMsg := Some {| key := "%root.sha256"; content := "post" |};
     p_higherRootMsgId := None; p_expandRootCW := Some true;
     p_replyToMsgId := Some "%root.sha256" |}.

Definition sampleThread : ThreadAndExtras :=
  {| full := true;
     messages := [ {| key := "%sub.sha256"; content := "answer" |} ];
     errorReason := None |}.

Definition sampleProps : Props :=
  {| p_selfFeedId := "@me.ed25519"; p_selfAvatarUrl := None;
     p_rootMsgId := Some "%root.sha256"; p_rootMsg := None;
     p_higherRootMsgId := None; p_expandRootCW := None;
     p_replyToMsgId := None |}.

Definition sampleMsg : MsgAndExtras :=
  {| key := "%reply.sha256"; content := "hi" |}.

Definition sampleState : State :=
  {| selfFeedId := "@me.ed25519"; selfAvatarUrl := None;
     rootMsgId := "%root.sha256"; higherRootMsgId := None;
     loading := true; loadingReplies := false;
     thread := emptyThread; subthreads := ∅; expandRootCW := false;
     replyText := "draft"; replyEditable := true;
     getSelfRepliesReadable := None; startedAsReply := false;
     keyboardVisible := false |}.

(** ** The state a run ends in, and direct readings of single fields *)

(** The last state of the fold: all reducers applied in order. *)
Definition lastState (s : State) (rs : list Reducer) : State :=
  fold_left (fun a r => r a) rs s.

(** The state the screen is in after the first props and [evs]. *)
Definition finalState (props : Props) (evs : list Event) : completion State :=
  match propsReducer props None with
  | TypeError => TypeError
  | Normal s0 =>
      Normal (lastState s0 (reducersOf (outputs props initialPipeline evs)))
  end.

(** Keyboard visibility read off the events alone: the latest keyboard
    event decides, [b] stands when there is none. *)
Fixpoint keyboardAfter (b : bool) (evs : list Event) : bool :=
  match evs with
  | [] => b
  | KeyboardAppeared :: evs' => keyboardAfter true evs'
  | KeyboardDisappeared :: evs' => keyboardAfter false evs'
  | _ :: evs' => keyboardAfter b evs'
  end.

(** Reply text read off the events alone.  [sub] tells whether a draft
    load has been started, so that a delivered draft item counts. *)
Fixpoint replyTextAfter (sub : bool) (text : string) (evs : list Event)
  : string :=
  match evs with
  | [] => text
  | UpdateReplyText t :: evs' => replyTextAfter sub t evs'
  | PublishMsg :: evs' => replyTextAfter sub "" evs'
  | WillReply :: evs' => replyTextAfter sub "" evs'
  | LoadReplyDraft _ :: evs' => replyTextAfter true text evs'
  | DraftItem v :: evs' =>
      if sub
      then replyTextAfter sub
             (if truthy_string v then nullish_or v "" else "") evs'
      else replyTextAfter sub text evs'
  | _ :: evs' => replyTextAfter sub text evs'
  end.

(** The ids that reply-seen events reported, in order. *)
Fixpoint seenIds (evs : list Event) : list MsgId :=
  match evs with
  | [] => []
  | ReplySeen msgId :: evs' => msgId :: seenIds evs'
  | _ :: evs' => seenIds evs'
  end.

(** Over a sequence of [replyEditable] flags: every [false] is directly
    followed by a [true], so the sequence never ends locked. *)
Fixpoint unlockedAfter (bs : list bool) : bool :=
  match bs with
  | [] => true
  | b :: rest =>
      (b || match rest with b' :: _ => b' | [] => false end)
      && unlockedAfter rest
  end.

(** The fields of the state that only the initialization writes. *)
Definition sameIdentity (a b : State) : Prop :=
  selfFeedId a = selfFeedId b /\
  selfAvatarUrl a = selfAvatarUrl b /\
  rootMsgId a = rootMsgId b /\
  higherRootMsgId a = higherRootMsgId b /\
  expandRootCW a = expandRootCW b /\
  getSelfRepliesReadable a = getSelfRepliesReadable b /\
  startedAsReply a = startedAsReply b.

Definition isKeyboardEvent (ev : Event) : bool :=
  match ev with
  | KeyboardAppeared | KeyboardDisappeared => true
  | _ => false
  end.

Definition isReplyStart (ev : Event) : bool :=
  match ev with
  | WillReply => true
  | _ => false
  end.

(** Number of reply starts in a run. *)
Fixpoint replyStarts (evs : list Event) : nat :=
  match evs with
  | [] => 0
  | ev :: evs' => (if isReplyStart ev then 1 else 0) + replyStarts evs'
  end.

(** ** Properties of the reducers *)

(** C9: the state built by [propsReducer] does not depend on the previous
    state: for all props and any two previous states, [undefined]
    included, both runs complete alike, with the same state or the same
    exception. *)
Theorem propsReducer_ignores_prev (props : Props) (prev1 prev2 : option State) :
  propsReducer props prev1 = propsReducer props prev2.
Proof. unfold propsReducer. destruct (resolveRootMsgId props); reflexivity. Qed.

(** C10: the self-reply echo reducer drops the error classification: the
    thread it installs is made of the extended message list and
    [full = true] only, so whatever [errorReason] the previous thread
    carried ([blocked], [missing] or [unknown]) is gone afterwards. *)
Theorem addSelfRepliesReducer_clears_errorReason
  (prev : State) (newMsg : MsgAndExtras) (reason : ErrorReason) :
  errorReason (thread prev) = Some reason ->
  errorReason (thread (addSelfRepliesReducer newMsg prev)) = None /\
  thread (addSelfRepliesReducer newMsg prev) =
    {| full := true;
       messages := messages (thread prev) ++ [newMsg];
       errorReason := None |}.
Proof. intros _. split; reflexivity. Qed.

Lemma addSelfRepliesReducer_clears_errorReason_witness :
  errorReason (thread (setThreadReducer blockedThread sampleState)) =
    Some blocked /\
  errorReason
    (thread
       (addSelfRepliesReducer sampleMsg
          (setThreadReducer blockedThread sampleState))) = None.
Proof.
  split; [reflexivity|].
  exact (proj1 (addSelfRepliesReducer_clears_errorReason
                  (setThreadReducer blockedThread sampleState)
                  sampleMsg blocked eq_refl)).
Defined.

(** C6: the draft-load reducer installs the empty text when the fetched
    value is falsy ([null], [undefined] or the empty string) and the stored
    string itself otherwise; an absent entry and a stored empty string both
    end in [replyText = ""]. *)
Theorem loadReplyDraftReducer_replyText (v : option string) (prev : State) :
  (truthy_string v = false ->
   replyText (loadReplyDraftReducer v prev) = "") /\
  (forall text, v = Some text -> text <> "" ->
   replyText (loadReplyDraftReducer v prev) = text) /\
  replyText (loadReplyDraftReducer None prev) = "" /\
  replyText (loadReplyDraftReducer (Some "") prev) = "" /\
  replyText (loadReplyDraftReducer (Some "hello") prev) = "hello".
Proof.
  repeat split.
  - intros Hv. unfold loadReplyDraftReducer. rewrite Hv. reflexivity.
  - intros text -> Hne. destruct text as [|c text]; [congruence|reflexivity].
Qed.

Lemma loadReplyDraftReducer_replyText_witness :
  truthy_string (Some "") = false /\
  replyText (loadReplyDraftReducer (Some "") sampleState) = "".
Proof.
  split; [reflexivity|].
  exact (proj1 (loadReplyDraftReducer_replyText (Some "") sampleState) eq_refl).
Defined.

(** C4: a publish action emits exactly two reducers, one right after the
    other; folded from any state they give first a state with
    [replyEditable = false] and [replyText = ""], then a state with
    [replyEditable = true] whose [replyText] is the one the first left. *)
Theorem publish_emits_lock_then_unlock
  (props : Props) (pl : Pipeline) (prev : State) :
  step props pl PublishMsg =
    (pl, [Emit emptyPublishedReducer; Emit resetEditableReducer]) /\
  exists s1 s2,
    foldStates prev (reducersOf (snd (step props pl PublishMsg))) = [s1; s2] /\
    replyEditable s1 = false /\ replyText s1 = "" /\
    replyEditable s2 = true /\ replyText s2 = replyText s1.
Proof.
  split; [reflexivity|].
  exists (emptyPublishedReducer prev),
    (resetEditableReducer (emptyPublishedReducer prev)).
  repeat split.
Qed.

(** C2: the root-message hydration reducer returns the previous state as
    it is when the previous thread is full and has at least one message;
    in every other case it returns the previous state with its thread
    replaced by the non-full thread holding the rehydrated root message
    alone.  A full thread that was loaded is therefore kept. *)
Theorem setRootMsgReducer_guard (rootMsg : MsgAndExtras) (prev : State) :
  (full (thread prev) = true /\ messages (thread prev) <> [] ->
   setRootMsgReducer rootMsg prev = prev) /\
  (~ (full (thread prev) = true /\ messages (thread prev) <> []) ->
   setRootMsgReducer rootMsg prev =
     with_thread
       {| full := false; messages := [rootMsg]; errorReason := None |} prev /\
   full (thread (setRootMsgReducer rootMsg prev)) = false /\
   messages (thread (setRootMsgReducer rootMsg prev)) = [rootMsg]).
Proof.
  unfold setRootMsgReducer.
  destruct (full (thread prev)) eqn:Hf;
    destruct (messages (thread prev)) as [|m ms] eqn:Hm; simpl; split;
    try (intros [? ?]; congruence);
    try (intros _; repeat split; reflexivity);
    try (intros H; exfalso; apply H; split; congruence).
Qed.

Lemma setRootMsgReducer_guard_witness :
  (full (thread (addSelfRepliesReducer sampleMsg sampleState)) = true /\
   messages (thread (addSelfRepliesReducer sampleMsg sampleState)) <> []) /\
  setRootMsgReducer sampleMsg (addSelfRepliesReducer sampleMsg sampleState) =
    addSelfRepliesReducer sampleMsg sampleState.
Proof.
  assert (H : full (thread (addSelfRepliesReducer sampleMsg sampleState))
              = true /\
              messages (thread (addSelfRepliesReducer sampleMsg sampleState))
              <> []) by (split; [reflexivity|discriminate]).
  split; [exact H|].
  exact (proj1 (setRootMsgReducer_guard sampleMsg
                  (addSelfRepliesReducer sampleMsg sampleState)) H).
Defined.

(** The guard asks for at least one message: a full thread without
    messages, such as an error sentinel, is replaced by the placeholder. *)
Example setRootMsgReducer_replaces_empty_full_thread :
  thread (setRootMsgReducer sampleMsg (setThreadReducer missingThread sampleState))
  = {| full := false; messages := [sampleMsg]; errorReason := None |}.
Proof. reflexivity. Qed.

(** C7: the self-reply echo reducer appends the new message at the end of
    the previous message list and marks the thread full; after a reply
    start, of the messages the live feed delivers only the first one
    produces a reducer. *)
Theorem addSelfRepliesReducer_appends_first
  (props : Props) (pl : Pipeline) (prev : State)
  (newMsg : MsgAndExtras) (later : list MsgAndExtras) :
  messages (thread (addSelfRepliesReducer newMsg prev)) =
    messages (thread prev) ++ [newMsg] /\
  full (thread (addSelfRepliesReducer newMsg prev)) = true /\
  reducersOf
    (outputs props pl (WillReply :: SelfReply newMsg :: map SelfReply later)) =
    [emptyReplyTextReducer; addSelfRepliesReducer newMsg].
Proof.
  repeat split. simpl.
  do 2 f_equal.
  set (pl' := {| threadEnded := threadEnded pl;
                 subthreadLoads := subthreadLoads pl;
                 draftSubscribed := draftSubscribed pl;
                 selfReplyPending := false |}).
  assert (Hp : selfReplyPending pl' = false) by reflexivity.
  clearbody pl'. revert pl' Hp.
  induction later as [|m later IH]; intros pl' Hp; simpl.
  - reflexivity.
  - rewrite Hp. simpl. apply IH, Hp.
Qed.

(** ** The case-insensitive test against its declarative reading *)

Lemma append_nil_l (s : string) : "" +:+ s = s.
Proof. reflexivity. Qed.

Lemma append_cons (c : ascii) (s1 s2 : string) :
  String c s1 +:+ s2 = String c (s1 +:+ s2).
Proof. reflexivity. Qed.

Lemma matchesHere_spec (pat s : string) :
  matchesHere pat s = true <->
  exists mid post, s = mid +:+ post /\ foldCase mid = foldCase pat.
Proof.
  revert s. induction pat as [|p pat IH]; intros s; simpl.
  - split; [intros _|reflexivity].
    exists EmptyString, s. split; reflexivity.
  - destruct s as [|c s].
    + split; [discriminate|].
      intros (mid & post & Hs & Hf).
      destruct mid; simpl in Hf; discriminate.
    + rewrite andb_true_iff, Ascii.eqb_eq, IH. split.
      * intros [Hc (mid & post & -> & Hf)].
        exists (String c mid), post. rewrite append_cons. simpl.
        split; congruence.
      * intros (mid & post & Hs & Hf).
        destruct mid as [|c' mid]; simpl in Hf; [discriminate|].
        rewrite append_cons in Hs.
        injection Hs as -> ->. injection Hf as Hc Hf.
        split; [congruence|]. exists mid, post. split; [reflexivity|exact Hf].
Qed.

Lemma regexTestI_spec (pat s : string) :
  regexTestI pat s = true <-> containsCI pat s.
Proof.
  unfold containsCI. induction s as [|c s IH]; simpl.
  - rewrite orb_false_r, matchesHere_spec. split.
    + intros (mid & post & Hs & Hf). exists EmptyString, mid, post. tauto.
    + intros (pre & mid & post & Hs & Hf).
      destruct pre; [|rewrite append_cons in Hs; discriminate].
      exists mid, post. tauto.
  - rewrite orb_true_iff, IH, matchesHere_spec. split.
    + intros [(mid & post & Hs & Hf)|(pre & mid & post & Hs & Hf)].
      * exists EmptyString, mid, post. tauto.
      * exists (String c pre), mid, post. rewrite append_cons.
        split; congruence.
    + intros (pre & mid & post & Hs & Hf).
      destruct pre as [|c' pre].
      * left. exists mid, post. tauto.
      * right. rewrite append_cons in Hs. injection Hs as -> ->.
        exists pre, mid, post. tauto.
Qed.

Lemma regexTestI_false (pat s : string) :
  regexTestI pat s = false <-> ~ containsCI pat s.
Proof.
  rewrite <- regexTestI_spec. destruct (regexTestI pat s); split;
    congruence.
Qed.

(** C1: a failure of the thread load is classified by its message text,
    in this order: a message that matches "Author Blocked" (whatever the
    case of its letters) gives the blocked sentinel; otherwise one that
    matches "Not Found" gives the missing sentinel; every other failure
    gives the unknown sentinel.  Each sentinel is a full thread without
    messages, and the reducer that installs it sets [loading] and
    [loadingReplies] to [false]. *)
Theorem thread_failure_classified
  (props : Props) (pl : Pipeline) (err : JsError) (prev : State) :
  threadEnded pl = false ->
  exists r,
    reducersOf (snd (step props pl (ThreadFailed err))) = [r] /\
    (containsCI "Author Blocked" (message err) ->
     errorReason (thread (r prev)) = Some blocked) /\
    (~ containsCI "Author Blocked" (message err) ->
     containsCI "Not Found" (message err) ->
     errorReason (thread (r prev)) = Some missing) /\
    (~ containsCI "Author Blocked" (message err) ->
     ~ containsCI "Not Found" (message err) ->
     errorReason (thread (r prev)) = Some unknown) /\
    full (thread (r prev)) = true /\
    messages (thread (r prev)) = [] /\
    loading (r prev) = false /\
    loadingReplies (r prev) = false.
Proof.
  intros Hend.
  exists (setThreadReducer (replaceThreadError err)).
  split; [simpl; rewrite Hend; reflexivity|].
  unfold replaceThreadError.
  destruct (regexTestI "Author Blocked" (message err)) eqn:Hab;
    [|destruct (regexTestI "Not Found" (message err)) eqn:Hnf];
    rewrite ?regexTestI_spec, ?regexTestI_false in *;
    repeat split; simpl; intros; try reflexivity; tauto.
Qed.

Lemma thread_failure_classified_witness :
  threadEnded initialPipeline = false /\
  exists r,
    reducersOf
      (snd (step sampleProps initialPipeline
              (ThreadFailed {| message := "Error: author blocked by you" |})))
      = [r] /\
    errorReason (thread (r sampleState)) = Some blocked.
Proof.
  split; [reflexivity|].
  destruct (thread_failure_classified sampleProps initialPipeline
              {| message := "Error: author blocked by you" |} sampleState
              eq_refl) as (r & Hr & Hb & _).
  exists r. split; [exact Hr|].
  apply Hb. apply regexTestI_spec. reflexivity.
Defined.

Example classify_blocked_any_case :
  replaceThreadError {| message := "flume: AUTHOR blocked" |} = blockedThread.
Proof. reflexivity. Qed.

Example classify_missing :
  replaceThreadError {| message := "Error: not found in log" |} = missingThread.
Proof. reflexivity. Qed.

Example classify_unknown :
  replaceThreadError {| message := "timeout" |} = unknownErrorThread.
Proof. reflexivity. Qed.

Example propsReducer_without_root_throws :
  propsReducer
    {| p_selfFeedId := "@me.ed25519"; p_selfAvatarUrl := None;
       p_rootMsgId := None; p_rootMsg := None; p_higherRootMsgId := None;
       p_expandRootCW := None; p_replyToMsgId := None |} None = TypeError.
Proof. reflexivity. Qed.

Example propsReducer_empty_reply_target :
  exists s,
    propsReducer
      {| p_selfFeedId := "@me.ed25519"; p_selfAvatarUrl := None;
         p_rootMsgId := Some "%root.sha256"; p_rootMsg := None;
         p_higherRootMsgId := None; p_expandRootCW := None;
         p_replyToMsgId := Some "" |} None = Normal s /\
    startedAsReply s = false /\ keyboardVisible s = false.
Proof. eexists. repeat split. Qed.

(** C8: the initialization reducer is emitted once, for the first props
    only.  When the props carry a root message id or a root message, it
    produces a state whose [rootMsgId] is the explicit id when there is one
    and the key of the root message otherwise, with [loading = true],
    [loadingReplies = true] exactly when a root message was supplied, the
    empty full thread, and [startedAsReply] and [keyboardVisible] both true
    exactly when a reply target was given (a truthy [replyToMsgId]). *)
Theorem propsReducer_initial_state
  (props : Props) (prev : option State) (again : list Props) :
  is_Some (p_rootMsgId props) \/ is_Some (p_rootMsg props) ->
  exists s,
    propsReducer props prev = Normal s /\
    stateStream props (map PropsEmitted again) = Normal [s] /\
    (forall id, p_rootMsgId props = Some id -> rootMsgId s = id) /\
    (forall m, p_rootMsgId props = None -> p_rootMsg props = Some m ->
               rootMsgId s = key m) /\
    loading s = true /\
    (loadingReplies s = true <-> is_Some (p_rootMsg props)) /\
    thread s = emptyThread /\
    full (thread s) = true /\ messages (thread s) = [] /\
    (startedAsReply s = true <-> truthy_string (p_replyToMsgId props) = true) /\
    (keyboardVisible s = true <-> truthy_string (p_replyToMsgId props) = true) /\
    (forall id, p_replyToMsgId props = Some id -> id <> "" ->
                startedAsReply s = true /\ keyboardVisible s = true) /\
    (p_replyToMsgId props = None ->
     startedAsReply s = false /\ keyboardVisible s = false).
Proof.
  intros Hroot.
  assert (Hagain : forall pl, outputs props pl (map PropsEmitted again) = []).
  { induction again as [|p again IH]; intros pl; simpl; auto. }
  destruct (resolveRootMsgId props) as [rootId|] eqn:Hres.
  2: { exfalso. unfold resolveRootMsgId in Hres.
       destruct Hroot as [[x Hx]|[x Hx]]; rewrite Hx in Hres;
         [|destruct (p_rootMsgId props)]; discriminate. }
  unfold stateStream, propsReducer. rewrite Hres, Hagain.
  eexists. split; [reflexivity|]. split; [reflexivity|]. simpl.
  unfold resolveRootMsgId in Hres.
  split; [intros id Hid; rewrite Hid in Hres; congruence|].
  split; [intros m Hid Hm; rewrite Hid, Hm in Hres; congruence|].
  split; [reflexivity|].
  split.
  { destruct (p_rootMsg props) as [m|]; simpl; split; eauto;
      [discriminate|intros [? ?]; discriminate]. }
  do 3 (split; [reflexivity|]).
  destruct (p_replyToMsgId props) as [[|c id']|]; simpl;
    repeat split; intros; simplify_eq; auto.
Qed.

Lemma propsReducer_initial_state_witness :
  (is_Some (p_rootMsgId sampleReplyProps) \/
   is_Some (p_rootMsg sampleReplyProps)) /\
  exists s,
    propsReducer sampleReplyProps None = Normal s /\
    rootMsgId s = "%root.sha256" /\
    loadingReplies s = true /\
    startedAsReply s = true.
Proof.
  assert (H : is_Some (p_rootMsgId sampleReplyProps) \/
              is_Some (p_rootMsg sampleReplyProps)) by (right; eexists; reflexivity).
  split; [exact H|].
  destruct (propsReducer_initial_state sampleReplyProps None [] H)
    as (s & Hs & _ & _ & Hkey & _ & Hrep & _ & _ & _ & _ & _ & Hreply & _).
  exists s. split; [exact Hs|]. split; [|split].
  - apply (Hkey _ eq_refl eq_refl).
  - apply Hrep. eexists; reflexivity.
  - apply (Hreply "%root.sha256" eq_refl). discriminate.
Defined.

(** ** Folding runs of reducers *)

Lemma reducersOf_app (o1 o2 : list Output) :
  reducersOf (o1 ++ o2) = reducersOf o1 ++ reducersOf o2.
Proof.
  induction o1 as [|[r|q] o1 IH]; simpl; [reflexivity| |exact IH].
  now rewrite IH.
Qed.

Lemma outputs_app (props : Props) (pre post : list Event) (pl : Pipeline) :
  outputs props pl (pre ++ post) =
  outputs props pl pre ++ outputs props (pipelineAfter props pl pre) post.
Proof.
  revert pl. induction pre as [|ev pre IH]; intros pl; simpl; [reflexivity|].
  destruct (step props pl ev) as [pl' out] eqn:Hstep. simpl.
  now rewrite IH, app_assoc.
Qed.

Lemma foldStates_app (rs1 rs2 : list Reducer) (s : State) :
  foldStates s (rs1 ++ rs2) =
  foldStates s rs1 ++ foldStates (fold_left (fun a r => r a) rs1 s) rs2.
Proof.
  revert s. induction rs1 as [|r rs1 IH]; intros s; simpl; [reflexivity|].
  now rewrite IH.
Qed.

Lemma outputs_Forall (Q : Reducer -> Prop) (props : Props) :
  (forall pl ev, Forall Q (reducersOf (snd (step props pl ev)))) ->
  forall evs pl, Forall Q (reducersOf (outputs props pl evs)).
Proof.
  intros Hstep. induction evs as [|ev evs IH]; intros pl; simpl.
  - constructor.
  - specialize (Hstep pl ev).
    destruct (step props pl ev) as [pl' out]. simpl in Hstep.
    rewrite reducersOf_app. apply Forall_app. split; [exact Hstep|apply IH].
Qed.

Lemma foldStates_Forall (P : State -> Prop) (rs : list Reducer) :
  Forall (fun r => forall s, P s -> P (r s)) rs ->
  forall s, P s -> Forall P (foldStates s rs).
Proof.
  induction 1 as [|r rs Hr _ IH]; intros s Hs; simpl; constructor; auto.
Qed.



(** ** Sub-thread cache *)








(** ** The loading flag along the stream *)

Lemma step_keepsLoaded (props : Props) (pl : Pipeline) (ev : Event) :
  Forall keepsLoaded (reducersOf (snd (step props pl ev))).
Proof.
  destruct ev; simpl;
    repeat match goal with
           | |- context [if ?b then _ else _] => destruct b
           end; simpl;
    repeat constructor;
    intros s Hs;
    unfold setRootMsgReducer, setSubthreadReducer, loadReplyDraftReducer;
    repeat match goal with
           | |- context [if ?b then _ else _] => destruct b
           end;
    first [exact Hs | reflexivity].
Qed.

Lemma step_keepsLoading (props : Props) (pl : Pipeline) (ev : Event) :
  isThreadCompletion ev = false ->
  Forall keepsLoading (reducersOf (snd (step props pl ev))) /\
  threadEnded (fst (step props pl ev)) = threadEnded pl.
Proof.
  intros Hev. destruct ev; try discriminate Hev; simpl;
    repeat match goal with
           | |- context [if ?b then _ else _] => destruct b
           end; simpl;
    (split; [|reflexivity]);
    repeat constructor;
    intros s;
    unfold setRootMsgReducer, setSubthreadReducer, loadReplyDraftReducer;
    repeat match goal with
           | |- context [if ?b then _ else _] => destruct b
           end;
    reflexivity.
Qed.

Lemma step_thread_completion (props : Props) (pl : Pipeline) (ev : Event) :
  isThreadCompletion ev = true ->
  threadEnded pl = false ->
  exists t, reducersOf (snd (step props pl ev)) = [setThreadReducer t].
Proof.
  intros Hev Hpl. destruct ev; try discriminate Hev; simpl; rewrite Hpl;
    eexists; reflexivity.
Qed.

Lemma falls_step (r : Reducer) (rs : list Reducer) (s : State) :
  falls (map loading (s :: foldStates s (r :: rs))) =
  (if loading s && negb (loading (r s)) then 1 else 0)
  + falls (map loading (r s :: foldStates (r s) rs)).
Proof. reflexivity. Qed.

Lemma falls_keepsLoaded (rs : list Reducer) :
  Forall keepsLoaded rs ->
  forall s,
    falls (map loading (s :: foldStates s rs)) <= 1 /\
    (loading s = false -> falls (map loading (s :: foldStates s rs)) = 0).
Proof.
  induction 1 as [|r rs Hr _ IH]; intros s.
  - simpl. split; [lia|reflexivity].
  - rewrite falls_step.
    destruct (IH (r s)) as [IHle IHzero].
    remember (falls (map loading (r s :: foldStates (r s) rs))) as n.
    destruct (loading s) eqn:Hs; [destruct (loading (r s)) eqn:Hrs|].
    + simpl. split; [exact IHle|discriminate].
    + simpl. rewrite (IHzero eq_refl). split; [lia|discriminate].
    + rewrite (Hr s Hs) in IHzero |- *. simpl. rewrite (IHzero eq_refl).
      split; [lia|reflexivity].
Qed.

Lemma falls_keepsLoading (rs1 rs2 : list Reducer) :
  Forall keepsLoading rs1 ->
  forall s,
    falls (map loading (s :: foldStates s (rs1 ++ rs2))) =
      falls (map loading
               (fold_left (fun a r => r a) rs1 s
                :: foldStates (fold_left (fun a r => r a) rs1 s) rs2)) /\
    loading (fold_left (fun a r => r a) rs1 s) = loading s /\
    Forall (fun a => loading a = loading s) (foldStates s rs1).
Proof.
  induction 1 as [|r rs1 Hr _ IH]; intros s.
  - simpl. repeat split; constructor.
  - destruct (IH (r s)) as (IHf & IHl & IHa).
    rewrite <- app_comm_cons, falls_step, IHf.
    rewrite (Hr s) in *. rewrite andb_negb_r.
    repeat split; [exact IHl|].
    simpl. constructor; [apply Hr|exact IHa].
Qed.

Lemma loading_until_thread_completion
  (props : Props) (evs : list Event) (pl : Pipeline) (s : State) :
  loading s = true ->
  threadEnded pl = false ->
  let sts := s :: foldStates s (reducersOf (outputs props pl evs)) in
  (existsb isThreadCompletion evs = true -> falls (map loading sts) = 1) /\
  (existsb isThreadCompletion evs = false ->
   Forall (fun a => loading a = true) sts /\ falls (map loading sts) = 0).
Proof.
  revert pl s. induction evs as [|ev evs IH]; intros pl s Hs Hpl.
  - simpl. split; [discriminate|]. intros _. split; [|reflexivity].
    repeat constructor. exact Hs.
  - cbn zeta. simpl outputs. simpl existsb.
    destruct (isThreadCompletion ev) eqn:Hev.
    + destruct (step_thread_completion props pl ev Hev Hpl) as [t Ht].
      destruct (step props pl ev) as [pl' out]. simpl in Ht.
      rewrite reducersOf_app, Ht. simpl orb. split; [intros _|discriminate].
      change ([setThreadReducer t] ++ reducersOf (outputs props pl' evs))
        with (setThreadReducer t :: reducersOf (outputs props pl' evs)).
      rewrite falls_step, Hs.
      destruct (falls_keepsLoaded (reducersOf (outputs props pl' evs))
                  (outputs_Forall keepsLoaded props
                     (step_keepsLoaded props) evs pl')
                  (setThreadReducer t s)) as [_ Hzero].
      rewrite (Hzero eq_refl). reflexivity.
    + destruct (step_keepsLoading props pl ev Hev) as [Hkeep Hended].
      destruct (step props pl ev) as [pl' out]. simpl in Hkeep, Hended.
      rewrite reducersOf_app. simpl orb.
      destruct (falls_keepsLoading (reducersOf out)
                  (reducersOf (outputs props pl' evs)) Hkeep s)
        as (Hfalls & Hlast & Hall).
      rewrite Hfalls.
      assert (Hs' : loading (fold_left (fun a r => r a) (reducersOf out) s)
                    = true) by congruence.
      assert (Hpl' : threadEnded pl' = false) by congruence.
      destruct (IH pl' _ Hs' Hpl') as [IHsome IHnone].
      split; [exact IHsome|].
      intros Hnone. destruct (IHnone Hnone) as [IHall IHzero].
      split; [|exact IHzero].
      rewrite foldStates_app. constructor; [exact Hs|].
      apply Forall_app. split.
      * eapply Forall_impl; [exact Hall|]. simpl. intros a Ha. congruence.
      * now inversion IHall.
Qed.

Lemma propsReducer_loading (props : Props) (prev : option State) (s : State) :
  propsReducer props prev = Normal s -> loading s = true.
Proof.
  unfold propsReducer. destruct (resolveRootMsgId props); [|discriminate].
  intros H. injection H as <-. reflexivity.
Qed.

(** C5 (as amended): along the State stream of any run, [loading] goes
    from [true] to [false] at most once; it does so exactly once when the
    thread load completes (with a thread or with a failure) and not at all
    otherwise; every state before the first completion of the thread load
    has [loading = true]; and no reducer emitted after the initialization
    turns [loading] back to [true]. *)
Theorem loading_falls_at_most_once
  (props : Props) (evs : list Event) (sts : list State) :
  stateStream props evs = Normal sts ->
  falls (map loading sts) <= 1 /\
  (falls (map loading sts) = 1 <-> existsb isThreadCompletion evs = true) /\
  (forall pre post,
     evs = pre ++ post ->
     existsb isThreadCompletion pre = false ->
     exists before rest,
       stateStream props pre = Normal before /\
       sts = before ++ rest /\
       Forall (fun s => loading s = true) before) /\
  Forall keepsLoaded (reducersOf (outputs props initialPipeline evs)).
Proof.
  unfold stateStream.
  destruct (propsReducer props None) as [s0|] eqn:Hprops; [|discriminate].
  intros H. injection H as <-.
  pose proof (propsReducer_loading props None s0 Hprops) as Hs0.
  pose proof (outputs_Forall keepsLoaded props (step_keepsLoaded props))
    as Hloaded.
  split; [apply falls_keepsLoaded, Hloaded|].
  split; [|split; [|apply Hloaded]].
  - destruct (loading_until_thread_completion props evs initialPipeline s0
                Hs0 eq_refl) as [Hsome Hnone].
    destruct (existsb isThreadCompletion evs).
    + split; [reflexivity|]. intros _. now apply Hsome.
    + destruct (Hnone eq_refl) as [_ Hzero]. rewrite Hzero.
      split; discriminate.
  - intros pre post -> Hpre.
    destruct (loading_until_thread_completion props pre initialPipeline s0
                Hs0 eq_refl) as [_ Hnone].
    destruct (Hnone Hpre) as [Hall _].
    eexists; eexists. split; [reflexivity|]. split; [|exact Hall].
    rewrite outputs_app, reducersOf_app, foldStates_app.
    rewrite app_comm_cons. reflexivity.
Qed.

Lemma loading_falls_at_most_once_witness :
  exists sts,
    stateStream sampleReplyProps
      [RootMsgRehydrated sampleMsg; KeyboardAppeared;
       ThreadFailed {| message := "Not Found" |}; ThreadLoaded sampleThread;
       WillReply; SelfReply sampleMsg] = Normal sts /\
    falls (map loading sts) = 1.
Proof.
  eexists. split; [reflexivity|].
  match goal with
  | |- falls (map loading ?l) = 1 =>
      apply (proj2 (proj1 (proj2
        (loading_falls_at_most_once sampleReplyProps
           [RootMsgRehydrated sampleMsg; KeyboardAppeared;
            ThreadFailed {| message := "Not Found" |};
            ThreadLoaded sampleThread; WillReply; SelfReply sampleMsg]
           l eq_refl))) eq_refl)
  end.
Defined.

(** C5, the part that fails: while the thread load has not completed,
    [loading] never becomes false.  A run of actions without any thread
    emission keeps [loading = true] in every state. *)
Lemma loading_never_falls_without_thread :
  exists sts,
    stateStream sampleProps
      [KeyboardAppeared; UpdateReplyText "hello"; PublishMsg;
       KeyboardDisappeared] = Normal sts /\
    length sts = 6 /\
    falls (map loading sts) = 0 /\
    Forall (fun s => loading s = true) sts.
Proof.
  eexists. split; [reflexivity|]. split; [reflexivity|].
  split; [reflexivity|]. repeat constructor.
Qed.

(** ** Fields that later reducers leave alone *)

Ltac step_cases ev :=
  destruct ev; simpl;
  repeat match goal with
         | |- context [if ?b then _ else _] => destruct b
         end; simpl.

Ltac each_reducer :=
  repeat first [apply List.Forall_nil | apply List.Forall_cons].

Ltac reducer_cases :=
  unfold setRootMsgReducer, setSubthreadReducer, loadReplyDraftReducer;
  repeat match goal with
         | |- context [if ?b then _ else _] => destruct b
         end.

Lemma sameIdentity_refl (s : State) : sameIdentity s s.
Proof. repeat split. Qed.

Lemma sameIdentity_trans (a b c : State) :
  sameIdentity a b -> sameIdentity b c -> sameIdentity a c.
Proof.
  unfold sameIdentity. intros (?&?&?&?&?&?&?) (?&?&?&?&?&?&?).
  repeat split; congruence.
Qed.

Lemma step_sameIdentity (props : Props) (pl : Pipeline) (ev : Event) :
  Forall (fun r => forall s, sameIdentity (r s) s)
    (reducersOf (snd (step props pl ev))).
Proof.
  step_cases ev; each_reducer; intros s; reducer_cases;
    unfold sameIdentity; simpl; repeat split.
Qed.

(** X1: in every state of the stream, the identity fields are the ones the
    initialization wrote from the props, and [getSelfRepliesReadable] is
    [null]: no reducer of the model ever writes them. *)
Theorem identity_fields_are_frozen
  (props : Props) (evs : list Event) (sts : list State) :
  stateStream props evs = Normal sts ->
  exists s0,
    propsReducer props None = Normal s0 /\
    Forall (fun s =>
              sameIdentity s s0 /\
              selfFeedId s = p_selfFeedId props /\
              selfAvatarUrl s = p_selfAvatarUrl props /\
              higherRootMsgId s = p_higherRootMsgId props /\
              expandRootCW s = nullish_or (p_expandRootCW props) false /\
              startedAsReply s = truthy_string (p_replyToMsgId props) /\
              getSelfRepliesReadable s = None) sts.
Proof.
  unfold stateStream.
  destruct (propsReducer props None) as [s0|] eqn:Hprops; [|discriminate].
  intros H. injection H as <-. exists s0. split; [reflexivity|].
  assert (Hall : Forall (fun s => sameIdentity s s0)
                   (s0 :: foldStates s0
                            (reducersOf (outputs props initialPipeline evs)))).
  { constructor; [apply sameIdentity_refl|].
    apply foldStates_Forall; [|apply sameIdentity_refl].
    eapply Forall_impl;
      [apply outputs_Forall; intros; apply step_sameIdentity|].
    intros r Hr s Hs. simpl in Hr.
    eapply sameIdentity_trans; [apply Hr|exact Hs]. }
  eapply Forall_impl; [exact Hall|].
  intros s Hs. simpl in Hs. split; [exact Hs|].
  destruct Hs as (H1 & H2 & _ & H4 & H5 & H6 & H7).
  unfold propsReducer in Hprops.
  destruct (resolveRootMsgId props); [|discriminate].
  injection Hprops as <-. simpl in *.
  rewrite H1, H2, H4, H5, H6, H7.
  repeat split. destruct (truthy_string (p_replyToMsgId props)); reflexivity.
Qed.

Lemma identity_fields_are_frozen_witness :
  exists sts,
    stateStream sampleReplyProps
      [ThreadLoaded sampleThread; WillReply; SelfReply sampleMsg;
       PublishMsg; KeyboardDisappeared] = Normal sts /\
    Forall (fun s => startedAsReply s = true /\
                     getSelfRepliesReadable s = None) sts.
Proof.
  eexists. split; [reflexivity|].
  destruct (identity_fields_are_frozen sampleReplyProps
              [ThreadLoaded sampleThread; WillReply; SelfReply sampleMsg;
               PublishMsg; KeyboardDisappeared] _ eq_refl) as (s0 & _ & Hall).
  eapply Forall_impl; [exact Hall|].
  intros s (_ & _ & _ & _ & _ & Hrep & Hget). split; [exact Hrep|exact Hget].
Defined.

Lemma step_flagsOrdered (props : Props) (pl : Pipeline) (ev : Event) :
  Forall (fun r => forall s,
            (loadingReplies s = true -> loading s = true) ->
            loadingReplies (r s) = true -> loading (r s) = true)
    (reducersOf (snd (step props pl ev))).
Proof.
  step_cases ev; each_reducer; intros s Hs; reducer_cases;
    simpl; first [exact Hs | discriminate].
Qed.

(** X2: in every state of the stream, [loadingReplies = true] implies
    [loading = true]: the replies are never marked as loading once the
    thread itself is not. *)
Theorem loadingReplies_implies_loading
  (props : Props) (evs : list Event) (sts : list State) :
  stateStream props evs = Normal sts ->
  Forall (fun s => loadingReplies s = true -> loading s = true) sts.
Proof.
  unfold stateStream.
  destruct (propsReducer props None) as [s0|] eqn:Hprops; [|discriminate].
  intros H. injection H as <-.
  pose proof (propsReducer_loading props None s0 Hprops) as Hs0.
  constructor; [intros _; exact Hs0|].
  apply foldStates_Forall; [|intros _; exact Hs0].
  apply outputs_Forall. intros. apply step_flagsOrdered.
Qed.

Lemma loadingReplies_implies_loading_witness :
  exists sts,
    stateStream sampleReplyProps
      [RootMsgRehydrated sampleMsg; ThreadLoaded sampleThread; WillReply]
      = Normal sts /\
    Forall (fun s => loadingReplies s = true -> loading s = true) sts.
Proof.
  eexists. split; [reflexivity|].
  exact (loadingReplies_implies_loading sampleReplyProps
           [RootMsgRehydrated sampleMsg; ThreadLoaded sampleThread; WillReply]
           _ eq_refl).
Defined.

(** ** Keyboard visibility and reply text against the events *)

Lemma keyboardVisible_lastState
  (props : Props) (evs : list Event) (pl : Pipeline) (s : State) :
  keyboardVisible (lastState s (reducersOf (outputs props pl evs))) =
  keyboardAfter (keyboardVisible s) evs.
Proof.
  unfold lastState. revert pl s.
  induction evs as [|ev evs IH]; intros pl s; [reflexivity|].
  step_cases ev; rewrite ?IH; reducer_cases; reflexivity.
Qed.

(** X3: the keyboard flag of the state a run ends in is decided by the
    latest keyboard event of the run, and by the truthiness of
    [replyToMsgId] when the run has none; no other action or emission
    touches it. *)
Theorem keyboardVisible_follows_last_keyboard_event
  (props : Props) (evs : list Event) (s : State) :
  finalState props evs = Normal s ->
  keyboardVisible s =
    keyboardAfter (truthy_string (p_replyToMsgId props)) evs.
Proof.
  unfold finalState, propsReducer.
  destruct (resolveRootMsgId props) as [rootId|]; [|discriminate].
  intros H. injection H as <-.
  rewrite keyboardVisible_lastState. simpl.
  destruct (truthy_string (p_replyToMsgId props)); reflexivity.
Qed.

Lemma keyboardVisible_follows_last_keyboard_event_witness :
  exists s,
    finalState sampleReplyProps
      [KeyboardDisappeared; ThreadLoaded sampleThread; PublishMsg] = Normal s /\
    keyboardVisible s = false.
Proof.
  eexists. split; [reflexivity|].
  exact (keyboardVisible_follows_last_keyboard_event sampleReplyProps
           [KeyboardDisappeared; ThreadLoaded sampleThread; PublishMsg]
           _ eq_refl).
Defined.

Lemma replyText_lastState
  (props : Props) (evs : list Event) (pl : Pipeline) (s : State) :
  replyText (lastState s (reducersOf (outputs props pl evs))) =
  replyTextAfter (draftSubscribed pl) (replyText s) evs.
Proof.
  unfold lastState. revert pl s.
  induction evs as [|ev evs IH]; intros pl s; [reflexivity|].
  destruct ev; simpl;
    try (destruct (draftSubscribed pl) eqn:Hsub);
    repeat match goal with
           | |- context [if ?b then _ else _] =>
               lazymatch b with
               | truthy_string _ => fail
               | _ => destruct b eqn:?
               end
           end; simpl; rewrite ?IH; simpl; rewrite ?Hsub;
    try reflexivity;
    unfold setRootMsgReducer, setSubthreadReducer, loadReplyDraftReducer;
    try match goal with
        | |- context [truthy_string ?v] => destruct (truthy_string v)
        end; cbn [negb];
    repeat match goal with
           | |- context [if ?b then _ else _] => destruct b
           end; reflexivity.
Qed.

(** X4: the reply text of the state a run ends in is decided by the
    events that write it, the latest one winning: a text edit installs its
    text, a publish or a reply start clears it, and a draft item installs
    the stored draft (or clears it when falsy) once a draft load was
    started.  Thread loads, keyboard events and self replies leave it. *)
Theorem replyText_follows_last_writer
  (props : Props) (evs : list Event) (s : State) :
  finalState props evs = Normal s ->
  replyText s = replyTextAfter false "" evs.
Proof.
  unfold finalState, propsReducer.
  destruct (resolveRootMsgId props) as [rootId|]; [|discriminate].
  intros H. injection H as <-.
  apply (replyText_lastState props evs initialPipeline).
Qed.

Lemma replyText_follows_last_writer_witness :
  exists s,
    finalState sampleProps
      [UpdateReplyText "typed"; LoadReplyDraft "%root.sha256";
       DraftItem (Some "stored"); KeyboardAppeared] = Normal s /\
    replyText s = "stored".
Proof.
  eexists. split; [reflexivity|].
  exact (replyText_follows_last_writer sampleProps
           [UpdateReplyText "typed"; LoadReplyDraft "%root.sha256";
            DraftItem (Some "stored"); KeyboardAppeared] _ eq_refl).
Defined.

(** ** The reply field is never left locked *)

Lemma unlockedAfter_step (b b' : bool) (l : list bool) :
  unlockedAfter (b :: b' :: l) = (b || b') && unlockedAfter (b' :: l).
Proof. reflexivity. Qed.

Lemma step_editable (props : Props) (pl : Pipeline) (ev : Event) :
  reducersOf (snd (step props pl ev)) =
    [emptyPublishedReducer; resetEditableReducer] \/
  Forall (fun r => forall s, replyEditable (r s) = replyEditable s)
    (reducersOf (snd (step props pl ev))).
Proof.
  destruct ev; try (left; reflexivity); right; simpl;
    repeat match goal with
           | |- context [if ?b then _ else _] => destruct b
           end; simpl;
    each_reducer; intros s; reducer_cases; reflexivity.
Qed.

Lemma unlockedAfter_keeps (rs1 rs2 : list Reducer) :
  Forall (fun r => forall s, replyEditable (r s) = replyEditable s) rs1 ->
  forall s,
    replyEditable s = true ->
    unlockedAfter (map replyEditable (s :: foldStates s (rs1 ++ rs2))) =
      unlockedAfter
        (map replyEditable (lastState s rs1 :: foldStates (lastState s rs1) rs2))
    /\ replyEditable (lastState s rs1) = true.
Proof.
  induction 1 as [|r rs1 Hr _ IH]; intros s Hs.
  - split; [reflexivity|exact Hs].
  - assert (Hrs : replyEditable (r s) = true) by (rewrite Hr; exact Hs).
    destruct (IH (r s) Hrs) as [IHu IHl].
    change (lastState s (r :: rs1)) with (lastState (r s) rs1).
    split; [|exact IHl].
    rewrite <- IHu. simpl app. simpl foldStates. simpl map.
    rewrite unlockedAfter_step, Hs. reflexivity.
Qed.

Lemma unlockedAfter_outputs
  (props : Props) (evs : list Event) (pl : Pipeline) (s : State) :
  replyEditable s = true ->
  unlockedAfter
    (map replyEditable
       (s :: foldStates s (reducersOf (outputs props pl evs)))) = true /\
  replyEditable (lastState s (reducersOf (outputs props pl evs))) = true.
Proof.
  revert pl s. induction evs as [|ev evs IH]; intros pl s Hs.
  - simpl. rewrite Hs. split; reflexivity.
  - simpl outputs.
    pose proof (step_editable props pl ev) as Hstep.
    destruct (step props pl ev) as [pl' out]. simpl in Hstep.
    rewrite reducersOf_app. unfold lastState. rewrite fold_left_app.
    fold (lastState s (reducersOf out)).
    destruct Hstep as [Hpub|Hkeep].
    + rewrite Hpub.
      destruct (IH pl' (resetEditableReducer (emptyPublishedReducer s))
                  eq_refl) as [IHu IHl].
      split; [|exact IHl].
      simpl app. simpl foldStates. simpl map.
      rewrite !unlockedAfter_step, Hs. simpl. exact IHu.
    + destruct (unlockedAfter_keeps (reducersOf out)
                  (reducersOf (outputs props pl' evs)) Hkeep s Hs)
        as [Hu Hl].
      destruct (IH pl' (lastState s (reducersOf out)) Hl) as [IHu IHl].
      split; [rewrite Hu; exact IHu|exact IHl].
Qed.

(** X5: along the stream, every state with [replyEditable = false] is
    directly followed by a state with [replyEditable = true], and the
    stream never ends on a locked reply field: the lock of a publish is
    released by the very next reducer, whatever else happens. *)
Theorem replyEditable_always_released
  (props : Props) (evs : list Event) (sts : list State) :
  stateStream props evs = Normal sts ->
  unlockedAfter (map replyEditable sts) = true /\
  (forall s, last sts = Some s -> replyEditable s = true).
Proof.
  unfold stateStream.
  destruct (propsReducer props None) as [s0|] eqn:Hprops; [|discriminate].
  intros H. injection H as <-.
  assert (Hs0 : replyEditable s0 = true).
  { unfold propsReducer in Hprops.
    destruct (resolveRootMsgId props); [|discriminate].
    injection Hprops as <-. reflexivity. }
  destruct (unlockedAfter_outputs props evs initialPipeline s0 Hs0)
    as [Hu Hl].
  split; [exact Hu|].
  intros s Hlast.
  assert (Hend : forall rs a, last (a :: foldStates a rs) = Some (lastState a rs)).
  { induction rs as [|r rs IHrs]; intros a; [reflexivity|].
    change (a :: foldStates a (r :: rs)) with (a :: r a :: foldStates (r a) rs).
    rewrite last_cons_cons. apply IHrs. }
  rewrite Hend in Hlast. injection Hlast as <-. exact Hl.
Qed.

Lemma replyEditable_always_released_witness :
  exists sts,
    stateStream sampleProps
      [UpdateReplyText "hello"; PublishMsg; PublishMsg; KeyboardAppeared]
      = Normal sts /\
    unlockedAfter (map replyEditable sts) = true.
Proof.
  eexists. split; [reflexivity|].
  exact (proj1 (replyEditable_always_released sampleProps
                  [UpdateReplyText "hello"; PublishMsg; PublishMsg;
                   KeyboardAppeared] _ eq_refl)).
Defined.

(** ** The sub-thread cache along the stream *)

Lemma mem_In (msgId : MsgId) (l : list MsgId) :
  mem msgId l = true <-> In msgId l.
Proof.
  unfold mem. rewrite existsb_exists. split.
  - intros (x & Hx & Heq). apply String.eqb_eq in Heq. now subst.
  - intros Hin. exists msgId. split; [exact Hin|apply String.eqb_refl].
Qed.

Lemma removeOne_In (msgId x : MsgId) (l : list MsgId) :
  In x (removeOne msgId l) -> In x l.
Proof.
  induction l as [|y l IH]; simpl; [tauto|].
  destruct (String.eqb msgId y); simpl; tauto.
Qed.

Lemma lastState_preserves (P : State -> Prop) (rs : list Reducer) :
  Forall (fun r => forall s, P s -> P (r s)) rs ->
  forall s, P s -> P (lastState s rs).
Proof.
  unfold lastState. induction 1 as [|r rs Hr _ IH]; intros s Hs; simpl; auto.
Qed.

Lemma seenIds_cons (ev : Event) (evs : list Event) :
  seenIds (ev :: evs) = seenIds [ev] ++ seenIds evs.
Proof. destruct ev; reflexivity. Qed.

Lemma setSubthreadReducer_keys
  (msgId : MsgId) (t : ThreadAndExtras) (K : list MsgId) (a : State) :
  In msgId K ->
  (forall id, is_Some (subthreads a !! id) -> In id K) ->
  forall id, is_Some (subthreads (setSubthreadReducer msgId t a) !! id) ->
             In id K.
Proof.
  intros HK Ha id. unfold setSubthreadReducer.
  destruct (subthreads a !! msgId) eqn:Hm; simpl; [apply Ha|].
  rewrite lookup_insert_is_Some. intros [->|[_ Hid]]; auto.
Qed.

Lemma step_keys (props : Props) (pl : Pipeline) (ev : Event) (K : list MsgId) :
  (forall id, In id (subthreadLoads pl) -> In id K) ->
  (forall id, In id (subthreadLoads (fst (step props pl ev))) ->
              In id (K ++ seenIds [ev])) /\
  Forall (fun r => forall a,
            (forall id, is_Some (subthreads a !! id) -> In id K) ->
            forall id, is_Some (subthreads (r a) !! id) -> In id K)
    (reducersOf (snd (step props pl ev))).
Proof.
  intros Hpl.
  destruct ev; simpl;
    repeat match goal with
           | |- context [if ?b then _ else _] => destruct b eqn:?
           end; simpl;
    (split;
     [ intros id Hid; rewrite ?app_nil_r;
       try (apply in_app_iff in Hid; destruct Hid as [Hid|Hid]);
       try apply removeOne_In in Hid;
       rewrite ?in_app_iff; auto
     | each_reducer; intros a Ha;
       try (apply setSubthreadReducer_keys;
            [apply Hpl, mem_In; assumption|exact Ha]);
       unfold setRootMsgReducer, loadReplyDraftReducer;
       repeat match goal with
              | |- context [if ?b then _ else _] => destruct b
              end; exact Ha ]).
Qed.

Lemma outputs_keys
  (props : Props) (evs : list Event) (pl : Pipeline) (s : State)
  (K : list MsgId) :
  (forall id, In id (subthreadLoads pl) -> In id K) ->
  (forall id, is_Some (subthreads s !! id) -> In id K) ->
  Forall (fun a => forall id, is_Some (subthreads a !! id) ->
                              In id (K ++ seenIds evs))
    (foldStates s (reducersOf (outputs props pl evs))).
Proof.
  revert pl s K. induction evs as [|ev evs IH]; intros pl s K Hpl Hs.
  - constructor.
  - simpl outputs.
    destruct (step_keys props pl ev K Hpl) as [Hpl' Hrs].
    destruct (step props pl ev) as [pl' out]. simpl in Hpl', Hrs.
    rewrite reducersOf_app, foldStates_app. apply Forall_app. split.
    + eapply Forall_impl;
        [apply (foldStates_Forall
                  (fun a => forall id, is_Some (subthreads a !! id) -> In id K)
                  _ Hrs s Hs)|].
      intros a Ha id Hid. cbv beta in Ha. apply in_app_iff. left. auto.
    + pose proof (lastState_preserves
                    (fun a => forall id, is_Some (subthreads a !! id) -> In id K)
                    _ Hrs s Hs) as Hlast.
      eapply Forall_impl;
        [apply (IH pl' (lastState s (reducersOf out)) (K ++ seenIds [ev]));
         [exact Hpl'|intros id Hid; apply in_app_iff; left; auto]|].
      intros a Ha id Hid. cbv beta in Ha.
      rewrite seenIds_cons, app_assoc. auto.
Qed.

(** X6: every key of the sub-thread map, in every state of the stream, is
    the id of an earlier reply-seen event of the run: the cache is filled
    only for messages the view reported as seen. *)
Theorem subthread_keys_were_seen
  (props : Props) (evs : list Event) (sts : list State) :
  stateStream props evs = Normal sts ->
  Forall (fun s => forall id, is_Some (subthreads s !! id) ->
                              In id (seenIds evs)) sts.
Proof.
  unfold stateStream, propsReducer.
  destruct (resolveRootMsgId props) as [rootId|]; [|discriminate].
  intros H. injection H as <-.
  constructor.
  - simpl. intros id [t Ht]. rewrite lookup_empty in Ht. discriminate.
  - apply (outputs_keys props evs initialPipeline _ []).
    + simpl. tauto.
    + simpl. intros id [t Ht]. rewrite lookup_empty in Ht. discriminate.
Qed.

Lemma subthread_keys_were_seen_witness :
  exists sts,
    stateStream sampleProps
      [SubthreadLoaded "%other.sha256" sampleThread; ReplySeen "%sub.sha256";
       SubthreadLoaded "%sub.sha256" sampleThread] = Normal sts /\
    Forall (fun s => forall id, is_Some (subthreads s !! id) ->
                                In id ["%sub.sha256"]) sts.
Proof.
  eexists. split; [reflexivity|].
  exact (subthread_keys_were_seen sampleProps
           [SubthreadLoaded "%other.sha256" sampleThread;
            ReplySeen "%sub.sha256";
            SubthreadLoaded "%sub.sha256" sampleThread] _ eq_refl).
Defined.



(** X8: sub-thread reducers for two different ids commute: whichever load
    delivers first, the resulting state is the same. *)
Theorem setSubthreadReducer_commutes
  (id1 id2 : MsgId) (t1 t2 : ThreadAndExtras) (prev : State) :
  id1 <> id2 ->
  setSubthreadReducer id1 t1 (setSubthreadReducer id2 t2 prev) =
  setSubthreadReducer id2 t2 (setSubthreadReducer id1 t1 prev).
Proof.
  intros Hne. unfold setSubthreadReducer.
  destruct (subthreads prev !! id1) as [a|] eqn:H1;
    destruct (subthreads prev !! id2) as [b|] eqn:H2; simpl;
    rewrite ?H1, ?H2; simpl; try reflexivity.
  - rewrite lookup_insert_ne by congruence. rewrite H1. reflexivity.
  - rewrite lookup_insert_ne by congruence. rewrite H2. reflexivity.
  - rewrite !lookup_insert_ne by congruence. rewrite H1, H2. simpl.
    unfold with_subthreads. simpl. f_equal.
    apply insert_insert_ne. exact Hne.
Qed.

Lemma setSubthreadReducer_commutes_witness :
  "%a.sha256" <> "%b.sha256" /\
  setSubthreadReducer "%a.sha256" sampleThread
    (setSubthreadReducer "%b.sha256" emptyThread sampleState) =
  setSubthreadReducer "%b.sha256" emptyThread
    (setSubthreadReducer "%a.sha256" sampleThread sampleState).
Proof.
  assert (H : "%a.sha256" <> "%b.sha256") by discriminate.
  split; [exact H|].
  exact (setSubthreadReducer_commutes "%a.sha256" "%b.sha256"
           sampleThread emptyThread sampleState H).
Defined.

(** X9: the root-message placeholder replaces an error sentinel.  When the
    thread load fails before the root message is rehydrated, the hydration
    reducer installs the one-message non-full thread over the sentinel: the
    error classification is gone, while [loading] stays [false]. *)
Theorem late_hydration_replaces_error_sentinel
  (err : JsError) (rootMsg : MsgAndExtras) (prev : State) :
  let failed := setThreadReducer (replaceThreadError err) prev in
  is_Some (errorReason (thread failed)) /\
  thread (setRootMsgReducer rootMsg failed) =
    {| full := false; messages := [rootMsg]; errorReason := None |} /\
  loading (setRootMsgReducer rootMsg failed) = false /\
  loadingReplies (setRootMsgReducer rootMsg failed) = false.
Proof.
  unfold replaceThreadError.
  destruct (regexTestI "Author Blocked" (message err));
    [|destruct (regexTestI "Not Found" (message err))];
    simpl; repeat split; eauto.
Qed.

(** ** A loaded thread between two thread emissions *)

Lemma outputs_Forall_until (Q : Reducer -> Prop) (props : Props) :
  (forall pl ev, isThreadCompletion ev = false ->
                 Forall Q (reducersOf (snd (step props pl ev)))) ->
  forall evs pl,
    existsb isThreadCompletion evs = false ->
    Forall Q (reducersOf (outputs props pl evs)).
Proof.
  intros Hstep. induction evs as [|ev evs IH]; intros pl Hevs; simpl.
  - constructor.
  - simpl in Hevs. apply orb_false_iff in Hevs. destruct Hevs as [Hev Hevs].
    specialize (Hstep pl ev Hev).
    destruct (step props pl ev) as [pl' out]. simpl in Hstep.
    rewrite reducersOf_app. apply Forall_app. split; [exact Hstep|].
    apply IH, Hevs.
Qed.

Lemma setRootMsgReducer_keeps_loaded (rootMsg : MsgAndExtras) (s : State) :
  full (thread s) = true -> messages (thread s) <> [] ->
  setRootMsgReducer rootMsg s = s.
Proof.
  intros Hf Hm. unfold setRootMsgReducer. rewrite Hf.
  destruct (messages (thread s)); [congruence|reflexivity].
Qed.

Lemma step_keepsLoadedThread
  (props : Props) (pl : Pipeline) (ev : Event) (base : list MsgAndExtras) :
  base <> [] ->
  isThreadCompletion ev = false ->
  Forall (fun r => forall s,
            (full (thread s) = true /\
             exists extra, messages (thread s) = base ++ extra) ->
            full (thread (r s)) = true /\
            exists extra, messages (thread (r s)) = base ++ extra)
    (reducersOf (snd (step props pl ev))).
Proof.
  intros Hbase Hev.
  destruct ev; try discriminate Hev; simpl;
    repeat match goal with
           | |- context [if ?b then _ else _] => destruct b
           end; simpl;
    each_reducer; intros s [Hf [extra Hm]].
  - rewrite setRootMsgReducer_keeps_loaded; eauto.
    rewrite Hm. destruct base; [congruence|discriminate].
  - unfold setSubthreadReducer.
    destruct (truthy_object (subthreads s !! msgId)); simpl; eauto.
  - unfold setSubthreadReducer.
    destruct (truthy_object (subthreads s !! msgId)); simpl; eauto.
  - simpl; eauto.
  - simpl; eauto.
  - simpl; eauto.
  - simpl; eauto.
  - simpl; eauto.
  - simpl; eauto.
  - unfold loadReplyDraftReducer.
    destruct (negb (truthy_string replyText0)); simpl; eauto.
  - simpl. split; [reflexivity|].
    exists (extra ++ [newMsg]). rewrite Hm, app_assoc. reflexivity.
Qed.

(** X10: between two emissions of the thread source, a loaded thread only
    grows.  Starting from a state whose thread is full and has messages,
    every state reached through events other than a thread load or failure
    has a full thread whose message list begins with the loaded messages;
    a late root-message placeholder does not replace it, and self replies
    are added at its end. *)
Theorem loaded_thread_only_grows
  (props : Props) (pl : Pipeline) (evs : list Event) (s : State) :
  existsb isThreadCompletion evs = false ->
  full (thread s) = true ->
  messages (thread s) <> [] ->
  Forall (fun a =>
            full (thread a) = true /\
            exists extra, messages (thread a) = messages (thread s) ++ extra)
    (foldStates s (reducersOf (outputs props pl evs))).
Proof.
  intros Hevs Hf Hm.
  apply foldStates_Forall.
  - apply outputs_Forall_until; [|exact Hevs].
    intros pl' ev Hev. apply step_keepsLoadedThread; assumption.
  - split; [exact Hf|]. exists []. now rewrite app_nil_r.
Qed.

Lemma loaded_thread_only_grows_witness :
  Forall (fun a =>
            full (thread a) = true /\
            exists extra,
              messages (thread a) = messages sampleThread ++ extra)
    (foldStates (setThreadReducer sampleThread sampleState)
       (reducersOf
          (outputs sampleReplyProps initialPipeline
             [RootMsgRehydrated sampleMsg; WillReply; SelfReply sampleMsg]))).
Proof.
  apply (loaded_thread_only_grows sampleReplyProps initialPipeline
           [RootMsgRehydrated sampleMsg; WillReply; SelfReply sampleMsg]
           (setThreadReducer sampleThread sampleState));
    [reflexivity|reflexivity|discriminate].
Defined.

(** ** More on the classification of failures *)

Lemma canonicalize_idempotent (c : ascii) :
  canonicalize (canonicalize c) = canonicalize c.
Proof.
  destruct c as [[] [] [] [] [] [] [] []]; reflexivity.
Qed.

Lemma matchesHere_foldCase (pat s : string) :
  matchesHere pat (foldCase s) = matchesHere pat s.
Proof.
  revert s. induction pat as [|p pat IH]; intros s; [reflexivity|].
  destruct s as [|c s]; simpl; [reflexivity|].
  now rewrite canonicalize_idempotent, IH.
Qed.

Lemma regexTestI_foldCase (pat s : string) :
  regexTestI pat (foldCase s) = regexTestI pat s.
Proof.
  induction s as [|c s IH].
  - reflexivity.
  - change (foldCase (String c s))
      with (String (canonicalize c) (foldCase s)).
    change (regexTestI pat (String (canonicalize c) (foldCase s)))
      with (matchesHere pat (foldCase (String c s))
            || regexTestI pat (foldCase s)).
    rewrite matchesHere_foldCase, IH. reflexivity.
Qed.

(** X11: the classification of a failure does not look at the case of the
    letters of the whole message: two errors whose messages agree once
    upper-cased get the same sentinel. *)
Theorem replaceThreadError_ignores_case (e1 e2 : JsError) :
  foldCase (message e1) = foldCase (message e2) ->
  replaceThreadError e1 = replaceThreadError e2.
Proof.
  intros H. unfold replaceThreadError.
  rewrite <- (regexTestI_foldCase "Author Blocked" (message e1)).
  rewrite <- (regexTestI_foldCase "Not Found" (message e1)).
  rewrite H, !regexTestI_foldCase. reflexivity.
Qed.

Lemma replaceThreadError_ignores_case_witness :
  foldCase "msg NOT found" = foldCase "Msg not Found" /\
  replaceThreadError {| message := "msg NOT found" |} =
  replaceThreadError {| message := "Msg not Found" |}.
Proof.
  split; [reflexivity|].
  exact (replaceThreadError_ignores_case
           {| message := "msg NOT found" |} {| message := "Msg not Found" |}
           eq_refl).
Defined.

Lemma append_assoc (a b c : string) : (a +:+ b) +:+ c = a +:+ b +:+ c.
Proof.
  induction a as [|x a IH]; [reflexivity|].
  rewrite !append_cons, IH. reflexivity.
Qed.

Lemma containsCI_context (pat s pre post : string) :
  containsCI pat s -> containsCI pat (pre +:+ s +:+ post).
Proof.
  intros (a & mid & b & -> & Hf).
  exists (pre +:+ a), mid, (b +:+ post). split; [|exact Hf].
  now rewrite !append_assoc.
Qed.

(** X12: the blocked classification has precedence and survives context:
    when a message is classified as blocked, so is every message that
    contains it, whatever text is put before and after it (also text that
    matches "Not Found"). *)
Theorem blocked_survives_context (err : JsError) (pre post : string) :
  replaceThreadError err = blockedThread ->
  replaceThreadError {| message := pre +:+ message err +:+ post |}
  = blockedThread.
Proof.
  unfold replaceThreadError at 1.
  destruct (regexTestI "Author Blocked" (message err)) eqn:Hab.
  - intros _. unfold replaceThreadError. simpl message.
    apply regexTestI_spec in Hab.
    apply (containsCI_context _ _ pre post), regexTestI_spec in Hab.
    rewrite Hab. reflexivity.
  - destruct (regexTestI "Not Found" (message err)); discriminate.
Qed.

Lemma blocked_survives_context_witness :
  replaceThreadError {| message := "author blocked" |} = blockedThread /\
  replaceThreadError
    {| message := "Not Found: " +:+ "author blocked" +:+ " (not found)" |}
  = blockedThread.
Proof.
  split; [reflexivity|].
  exact (blocked_survives_context {| message := "author blocked" |}
           "Not Found: " " (not found)" eq_refl).
Defined.

Lemma matchesHere_length (pat s : string) :
  matchesHere pat s = true -> String.length pat <= String.length s.
Proof.
  revert s. induction pat as [|p pat IH]; intros s; simpl; [lia|].
  destruct s as [|c s]; [discriminate|].
  intros H. apply andb_true_iff in H. destruct H as [_ H].
  apply IH in H. simpl. lia.
Qed.

Lemma regexTestI_length (pat s : string) :
  regexTestI pat s = true -> String.length pat <= String.length s.
Proof.
  induction s as [|c s IH]; simpl.
  - rewrite orb_false_r. apply matchesHere_length.
  - intros H. apply orb_true_iff in H. destruct H as [H|H].
    + apply matchesHere_length in H. exact H.
    + apply IH in H. lia.
Qed.

(** X13: a failure whose message is shorter than nine characters, the
    empty message included, is classified as unknown: neither pattern can
    match it. *)
Theorem short_message_is_unknown (err : JsError) :
  String.length (message err) < 9 ->
  replaceThreadError err = unknownErrorThread.
Proof.
  intros Hlen. unfold replaceThreadError.
  destruct (regexTestI "Author Blocked" (message err)) eqn:Hab.
  { apply regexTestI_length in Hab. simpl in Hab. lia. }
  destruct (regexTestI "Not Found" (message err)) eqn:Hnf.
  { apply regexTestI_length in Hnf. simpl in Hnf. lia. }
  reflexivity.
Qed.

Lemma short_message_is_unknown_witness :
  String.length "" < 9 /\
  replaceThreadError {| message := "" |} = unknownErrorThread.
Proof.
  assert (H : String.length "" < 9) by (simpl; lia).
  split; [exact H|].
  exact (short_message_is_unknown {| message := "" |} H).
Defined.

(** ** Storage keys of drafts *)

(** X14: the drafts of two different threads are read under different
    storage keys: the request a draft load issues determines the root
    message id it was issued for. *)
Theorem draft_request_determines_thread
  (props : Props) (pl1 pl2 : Pipeline) (id1 id2 : MsgId) :
  snd (step props pl1 (LoadReplyDraft id1)) =
  snd (step props pl2 (LoadReplyDraft id2)) ->
  id1 = id2.
Proof.
  simpl. intros H. injection H as H.
  repeat (rewrite !append_cons in H; injection H as H).
  exact H.
Qed.

Lemma draft_request_determines_thread_witness :
  snd (step sampleProps initialPipeline (LoadReplyDraft "%root.sha256")) =
  snd (step sampleProps
         (pipelineAfter sampleProps initialPipeline [WillReply])
         (LoadReplyDraft "%root.sha256")) /\
  "%root.sha256" = "%root.sha256".
Proof.
  split; [reflexivity|].
  exact (draft_request_determines_thread sampleProps initialPipeline
           (pipelineAfter sampleProps initialPipeline [WillReply])
           "%root.sha256" "%root.sha256" eq_refl).
Defined.

(** ** Keyboard events and the other events *)

Lemma step_keyboard (props : Props) (pl : Pipeline) (k : Event) :
  isKeyboardEvent k = true ->
  exists r,
    step props pl k = (pl, [Emit r]) /\
    forall pl' ev,
      isKeyboardEvent ev = false ->
      Forall (fun r' => forall s, r' (r s) = r (r' s))
        (reducersOf (snd (step props pl' ev))).
Proof.
  intros Hk. destruct k; try discriminate Hk.
  - exists keyboardAppearedReducer. split; [reflexivity|].
    intros pl' ev Hev. destruct ev; try discriminate Hev; simpl;
      repeat match goal with
             | |- context [if ?b then _ else _] => destruct b
             end; simpl;
      each_reducer; intros s;
      unfold setRootMsgReducer, setSubthreadReducer, loadReplyDraftReducer;
      simpl;
      repeat match goal with
             | |- context [if ?b then _ else _] => destruct b
             end; reflexivity.
  - exists keyboardDisappearedReducer. split; [reflexivity|].
    intros pl' ev Hev. destruct ev; try discriminate Hev; simpl;
      repeat match goal with
             | |- context [if ?b then _ else _] => destruct b
             end; simpl;
      each_reducer; intros s;
      unfold setRootMsgReducer, setSubthreadReducer, loadReplyDraftReducer;
      simpl;
      repeat match goal with
             | |- context [if ?b then _ else _] => destruct b
             end; reflexivity.
Qed.

Lemma lastState_commutes (r : Reducer) (rs : list Reducer) :
  Forall (fun r' => forall s, r' (r s) = r (r' s)) rs ->
  forall s, lastState (r s) rs = r (lastState s rs).
Proof.
  unfold lastState. induction 1 as [|r' rs Hr _ IH]; intros s; simpl.
  - reflexivity.
  - rewrite Hr. apply IH.
Qed.

Lemma lastState_app (rs1 rs2 : list Reducer) (s : State) :
  lastState s (rs1 ++ rs2) = lastState (lastState s rs1) rs2.
Proof. apply fold_left_app. Qed.

Lemma keyboard_event_swaps_from
  (props : Props) (pl : Pipeline) (s : State) (post : list Event)
  (k ev : Event) :
  isKeyboardEvent k = true ->
  isKeyboardEvent ev = false ->
  lastState s (reducersOf (outputs props pl (k :: ev :: post))) =
  lastState s (reducersOf (outputs props pl (ev :: k :: post))).
Proof.
  intros Hk Hev.
  destruct (step_keyboard props pl k Hk) as (r & Hstep & Hcomm).
  specialize (Hcomm pl ev Hev).
  change (outputs props pl (k :: ev :: post))
    with (let '(pl1, o1) := step props pl k in
          o1 ++ let '(pl2, o2) := step props pl1 ev in
                o2 ++ outputs props pl2 post).
  change (outputs props pl (ev :: k :: post))
    with (let '(pl1, o1) := step props pl ev in
          o1 ++ let '(pl2, o2) := step props pl1 k in
                o2 ++ outputs props pl2 post).
  rewrite Hstep.
  destruct (step props pl ev) as [pl' out]. simpl in Hcomm.
  destruct (step_keyboard props pl' k Hk) as (r2 & Hstep2 & _).
  assert (Hsame : r2 = r).
  { destruct k; try discriminate Hk; simpl in Hstep, Hstep2; congruence. }
  rewrite Hstep2, Hsame.
  rewrite !reducersOf_app, !lastState_app.
  f_equal. simpl reducersOf. change (lastState s [r]) with (r s).
  change (lastState (lastState s (reducersOf out)) [r])
    with (r (lastState s (reducersOf out))).
  apply lastState_commutes, Hcomm.
Qed.

(** X15: a keyboard event can be moved across any neighbouring event that
    is not a keyboard event without changing the state the run ends in:
    keyboard visibility is independent of everything else the model
    tracks. *)
Theorem keyboard_event_swaps
  (props : Props) (pre post : list Event) (k ev : Event) :
  isKeyboardEvent k = true ->
  isKeyboardEvent ev = false ->
  finalState props (pre ++ k :: ev :: post) =
  finalState props (pre ++ ev :: k :: post).
Proof.
  intros Hk Hev. unfold finalState.
  destruct (propsReducer props None) as [s0|]; [|reflexivity].
  f_equal. rewrite !outputs_app, !reducersOf_app, !lastState_app.
  apply keyboard_event_swaps_from; assumption.
Qed.

Lemma keyboard_event_swaps_witness :
  isKeyboardEvent KeyboardAppeared = true /\
  isKeyboardEvent (ThreadLoaded sampleThread) = false /\
  finalState sampleProps
    ([WillReply] ++ KeyboardAppeared :: ThreadLoaded sampleThread :: []) =
  finalState sampleProps
    ([WillReply] ++ ThreadLoaded sampleThread :: KeyboardAppeared :: []).
Proof.
  split; [reflexivity|]. split; [reflexivity|].
  exact (keyboard_event_swaps sampleProps [WillReply] []
           KeyboardAppeared (ThreadLoaded sampleThread) eq_refl eq_refl).
Defined.

(** ** Echoed self replies per reply start *)

Lemma step_echo (props : Props) (pl : Pipeline) (ev : Event) (s : State) :
  isThreadCompletion ev = false ->
  full (thread s) = true ->
  messages (thread s) <> [] ->
  full (thread (lastState s (reducersOf (snd (step props pl ev))))) = true /\
  exists e,
    messages (thread (lastState s (reducersOf (snd (step props pl ev))))) =
      messages (thread s) ++ e /\
    length e + (if selfReplyPending (fst (step props pl ev)) then 1 else 0)
    <= (if isReplyStart ev then 1 else 0)
       + (if selfReplyPending pl then 1 else 0).
Proof.
  intros Hev Hf Hm. unfold lastState.
  destruct ev; try discriminate Hev; simpl;
    repeat match goal with
           | |- context [if ?b then _ else _] => destruct b eqn:?
           end; simpl;
    rewrite ?(setRootMsgReducer_keeps_loaded _ s Hf Hm);
    unfold setSubthreadReducer, loadReplyDraftReducer;
    repeat match goal with
           | |- context [if ?b then _ else _] => destruct b
           end; simpl;
    (split; [try exact Hf; reflexivity|]);
    first [ exfalso; simpl in *; congruence
          | exists []; rewrite app_nil_r; split; [reflexivity|simpl; lia]
          | eexists [_]; split; [reflexivity|simpl; lia] ].
Qed.

(** X16: between two emissions of the thread source, starting from a
    loaded thread, the state a run ends in has the loaded messages followed
    by the echoed self replies only, and there are at most as many of them
    as reply starts in the run (plus one when a reply start was already
    waiting for its echo). *)
Theorem at_most_one_echo_per_reply_start
  (props : Props) (evs : list Event) (pl : Pipeline) (s : State) :
  existsb isThreadCompletion evs = false ->
  full (thread s) = true ->
  messages (thread s) <> [] ->
  exists echoed,
    messages (thread (lastState s (reducersOf (outputs props pl evs)))) =
      messages (thread s) ++ echoed /\
    length echoed <=
      replyStarts evs + (if selfReplyPending pl then 1 else 0).
Proof.
  revert pl s. induction evs as [|ev evs IH]; intros pl s Hevs Hf Hm.
  - exists []. rewrite app_nil_r. split; [reflexivity|simpl; lia].
  - simpl in Hevs. apply orb_false_iff in Hevs. destruct Hevs as [Hev Hevs].
    destruct (step_echo props pl ev s Hev Hf Hm) as (Hf' & e & He & Hlen).
    simpl outputs. destruct (step props pl ev) as [pl' out].
    simpl in Hf', He, Hlen.
    rewrite reducersOf_app, lastState_app.
    assert (Hm' : messages (thread (lastState s (reducersOf out))) <> []).
    { rewrite He. destruct (messages (thread s)); [congruence|discriminate]. }
    destruct (IH pl' _ Hevs Hf' Hm') as (echoed & Hech & Hlen').
    exists (e ++ echoed). split.
    + rewrite Hech, He, app_assoc. reflexivity.
    + rewrite length_app. simpl replyStarts. lia.
Qed.

Lemma at_most_one_echo_per_reply_start_witness :
  exists echoed,
    messages
      (thread
         (lastState (setThreadReducer sampleThread sampleState)
            (reducersOf
               (outputs sampleProps initialPipeline
                  [SelfReply sampleMsg; WillReply; SelfReply sampleMsg;
                   SelfReply sampleMsg])))) =
      messages sampleThread ++ echoed /\
    length echoed <= 1.
Proof.
  destruct (at_most_one_echo_per_reply_start sampleProps
              [SelfReply sampleMsg; WillReply; SelfReply sampleMsg;
               SelfReply sampleMsg]
              initialPipeline (setThreadReducer sampleThread sampleState)
              eq_refl eq_refl) as (echoed & Hm & Hlen);
    [discriminate|].
  exists echoed. split; [exact Hm|exact Hlen].
Defined.
